(** * 24-hour clock firmware (ATtiny85 driving a VID29 stepper)

    A shallow embedding of [src/main.c]: the timer 0 overflow handler that
    accumulates microseconds and raises a pulse request, and the main context
    that consumes the request and steps the motor through its six phases.

    Integers of the C program are values of [Z] with their wrap-around written
    out; the registers and the two static variables form one record that both
    contexts share; what the program does to the outside (port writes, busy
    waits, the idle sleep) and to the shared flag is recorded as a trace. *)

From Stdlib Require Import ZArith List Bool Lia Relations.
Import ListNotations.
Local Open Scope Z_scope.

(** ** Constants *)

(** [#define PULSE_LENGTH 3000] *)
Definition PULSE_LENGTH : Z := 3000.

(** [#define MICROSECONDS_PER_PULSE (6*80L*1000L*1000L)].  The product is
    480_000_000, which a 32-bit [long] holds. *)
Definition MICROSECONDS_PER_PULSE : Z := 6 * 80 * 1000 * 1000.

(** [#define MICROSECONDS_PER_INTERRUPT ((1024L*256L/F_CPU)*1000000L)].
    [F_CPU], the clock frequency in Hz, comes from the build (the board file
    named in the header comment) and is a parameter here.  C division
    truncates, hence [Z.quot]. *)
Definition MICROSECONDS_PER_INTERRUPT (F_CPU : Z) : Z :=
  Z.quot (1024 * 256) F_CPU * 1000000.

Definition LONG_MAX : Z := 2 ^ 31 - 1.

(** Bit numbers of <avr/io.h> for the ATtiny85. *)
Definition PB0 : Z := 0.
Definition PB1 : Z := 1.
Definition PB2 : Z := 2.
Definition PB5 : Z := 5.
Definition CS00 : Z := 0.
Definition CS02 : Z := 2.
Definition TOIE0 : Z := 1.
Definition PRADC : Z := 0.
Definition PRUSI : Z := 1.
Definition PRTIM1 : Z := 3.
Definition SLEEP_MODE_IDLE : Z := 0.

Definition _BV (bit : Z) : Z := Z.shiftl 1 bit.

Definition wrap8 (z : Z) : Z := z mod 2 ^ 8.
Definition wrap64 (z : Z) : Z := z mod 2 ^ 64.

(** [static const uint8_t pin_mask = _BV(PB0) | _BV(PB1) | _BV(PB2);] *)
Definition pin_mask : Z := Z.lor (Z.lor (_BV PB0) (_BV PB1)) (_BV PB2).

(** [static uint8_t stateMap[] = {0x5, 0x1, 0x3, 0x2, 0x6, 0x4};] *)
Definition stateMap : list Z := [0x5; 0x1; 0x3; 0x2; 0x6; 0x4].

(** ** The machine *)

(** The registers the program touches and its two static variables:
    [send_pulse], shared by both contexts, and [unaccounted_microseconds],
    private to the handler. *)
Record machine : Type := Machine {
  TCCR0B : Z;
  TIMSK : Z;
  ADCSRA : Z;
  PRR : Z;
  DDRB : Z;
  PORTB : Z;
  interrupts_on : bool;
  sleep_mode_sel : Z;
  send_pulse : Z;
  unaccounted_microseconds : Z
}.

(** State at power-on: registers at their reset value, statics zeroed. *)
Definition power_on : machine :=
  Machine 0 0 0 0 0 0 false 0 0 0.

Definition set_TCCR0B (v : Z) (m : machine) : machine :=
  Machine v (TIMSK m) (ADCSRA m) (PRR m) (DDRB m) (PORTB m)
          (interrupts_on m) (sleep_mode_sel m) (send_pulse m)
          (unaccounted_microseconds m).
Definition set_TIMSK (v : Z) (m : machine) : machine :=
  Machine (TCCR0B m) v (ADCSRA m) (PRR m) (DDRB m) (PORTB m)
          (interrupts_on m) (sleep_mode_sel m) (send_pulse m)
          (unaccounted_microseconds m).
Definition set_ADCSRA (v : Z) (m : machine) : machine :=
  Machine (TCCR0B m) (TIMSK m) v (PRR m) (DDRB m) (PORTB m)
          (interrupts_on m) (sleep_mode_sel m) (send_pulse m)
          (unaccounted_microseconds m).
Definition set_PRR (v : Z) (m : machine) : machine :=
  Machine (TCCR0B m) (TIMSK m) (ADCSRA m) v (DDRB m) (PORTB m)
          (interrupts_on m) (sleep_mode_sel m) (send_pulse m)
          (unaccounted_microseconds m).
Definition set_DDRB (v : Z) (m : machine) : machine :=
  Machine (TCCR0B m) (TIMSK m) (ADCSRA m) (PRR m) v (PORTB m)
          (interrupts_on m) (sleep_mode_sel m) (send_pulse m)
          (unaccounted_microseconds m).
Definition set_PORTB (v : Z) (m : machine) : machine :=
  Machine (TCCR0B m) (TIMSK m) (ADCSRA m) (PRR m) (DDRB m) v
          (interrupts_on m) (sleep_mode_sel m) (send_pulse m)
          (unaccounted_microseconds m).
Definition set_interrupts_on (b : bool) (m : machine) : machine :=
  Machine (TCCR0B m) (TIMSK m) (ADCSRA m) (PRR m) (DDRB m) (PORTB m)
          b (sleep_mode_sel m) (send_pulse m)
          (unaccounted_microseconds m).
Definition set_sleep_mode_sel (v : Z) (m : machine) : machine :=
  Machine (TCCR0B m) (TIMSK m) (ADCSRA m) (PRR m) (DDRB m) (PORTB m)
          (interrupts_on m) v (send_pulse m)
          (unaccounted_microseconds m).
Definition set_send_pulse (v : Z) (m : machine) : machine :=
  Machine (TCCR0B m) (TIMSK m) (ADCSRA m) (PRR m) (DDRB m) (PORTB m)
          (interrupts_on m) (sleep_mode_sel m) v
          (unaccounted_microseconds m).
Definition set_unaccounted_microseconds (v : Z) (m : machine) : machine :=
  Machine (TCCR0B m) (TIMSK m) (ADCSRA m) (PRR m) (DDRB m) (PORTB m)
          (interrupts_on m) (sleep_mode_sel m) (send_pulse m) v.

(** ** Traces *)

Inductive event : Type :=
| PortWrite (v : Z)   (* PORTB = v *)
| FlagWrite (v : Z)   (* send_pulse = v *)
| Hold (us : Z)       (* _delay_us(us) *)
| Idle.               (* sleep_mode() *)

Definition is_port_write (e : event) : bool :=
  match e with PortWrite _ => true | _ => false end.

(** A phase application: a port write of one of the codes of [stateMap]. *)
Definition is_phase_write (e : event) : bool :=
  match e with PortWrite v => existsb (Z.eqb v) stateMap | _ => false end.

Definition is_flag_set (e : event) : bool :=
  match e with FlagWrite v => negb (v =? 0) | _ => false end.

Definition is_flag_clear (e : event) : bool :=
  match e with FlagWrite v => v =? 0 | _ => false end.

Definition is_idle (e : event) : bool :=
  match e with Idle => true | _ => false end.

Definition count (p : event -> bool) (t : list event) : Z :=
  Z.of_nat (length (filter p t)).

(** Whether a port write carries the all-off code or a code of [stateMap]. *)
Definition port_write_allowed (e : event) : bool :=
  match e with
  | PortWrite v => (v =? 0) || existsb (Z.eqb v) stateMap
  | _ => true
  end.

(** Whether the flag is cleared somewhere after a phase application. *)
Fixpoint clear_after_phase (t : list event) : bool :=
  match t with
  | [] => false
  | e :: t' =>
      (is_phase_write e && existsb is_flag_clear t') || clear_after_phase t'
  end.

(** The events before the first idle wait. *)
Fixpoint before_idle (t : list event) : list event :=
  match t with
  | [] => []
  | Idle :: _ => []
  | e :: t' => e :: before_idle t'
  end.

(** ** Actions: state, trace, and failure on an out-of-range array read *)

Definition action (A : Type) : Type :=
  machine -> option (A * machine * list event).

Definition ret {A} (a : A) : action A := fun m => Some (a, m, []).

Definition bind {A B} (c : action A) (k : A -> action B) : action B :=
  fun m =>
    match c m with
    | None => None
    | Some (a, m1, t1) =>
        match k a m1 with
        | None => None
        | Some (b, m2, t2) => Some (b, m2, t1 ++ t2)
        end
    end.

Notation "x <- c ;; k" := (bind c (fun x => k))
  (at level 61, c at next level, right associativity).
Notation "c ;; k" := (bind c (fun _ => k))
  (at level 61, right associativity).

Definition read {A} (f : machine -> A) : action A :=
  fun m => Some (f m, m, []).
Definition modify (f : machine -> machine) : action unit :=
  fun m => Some (tt, f m, []).
Definition emit (e : event) : action unit :=
  fun m => Some (tt, m, [e]).

(** Final state and trace of a run. *)
Definition exec {A} (c : action A) (m : machine)
  : option (machine * list event) :=
  match c m with
  | Some (_, m', t) => Some (m', t)
  | None => None
  end.

(** [for (int i = 0; i < bound; i++) body(i)], for a constant bound. *)
Fixpoint for_from (i : Z) (n : nat) (body : Z -> action unit) : action unit :=
  match n with
  | O => ret tt
  | S n' => body i ;; for_from (i + 1) n' body
  end.
Definition for_lt (bound : Z) (body : Z -> action unit) : action unit :=
  for_from 0 (Z.to_nat bound) body.

(** [n] runs of an action in a row. *)
Fixpoint times (n : nat) (c : action unit) : action unit :=
  match n with
  | O => ret tt
  | S n' => c ;; times n' c
  end.

(** [stateMap[i]]: an index outside the array has no defined value. *)
Definition stateMap_at (i : Z) : action Z :=
  fun m =>
    if i <? 0 then None
    else match nth_error stateMap (Z.to_nat i) with
         | Some v => Some (v, m, [])
         | None => None
         end.

Definition write_PORTB (v : Z) : action unit :=
  modify (set_PORTB (wrap8 v)) ;; emit (PortWrite (wrap8 v)).
Definition write_send_pulse (v : Z) : action unit :=
  modify (set_send_pulse (wrap8 v)) ;; emit (FlagWrite (wrap8 v)).
Definition _delay_us (us : Z) : action unit := emit (Hold us).

(** ** Timer 0 overflow handler *)

(** The handler of lines 115-125 over its two constants.  The accumulator is
    a [uint64_t]; a [long] operand is converted to it before the operation.
<<
  unaccounted_microseconds += MICROSECONDS_PER_INTERRUPT;
  if (unaccounted_microseconds < MICROSECONDS_PER_PULSE) return;
  unaccounted_microseconds -= MICROSECONDS_PER_PULSE;
  send_pulse = 1;
>> *)
Definition rate_accumulator (per_interrupt per_pulse : Z) : action unit :=
  a <- read unaccounted_microseconds ;;
  modify (set_unaccounted_microseconds (wrap64 (a + wrap64 per_interrupt))) ;;
  u <- read unaccounted_microseconds ;;
  if u <? wrap64 per_pulse then ret tt
  else
    modify (set_unaccounted_microseconds (wrap64 (u - wrap64 per_pulse))) ;;
    write_send_pulse 1.

(** [ISR(TIMER0_OVF_vect)] with the program's constants. *)
Definition TIMER0_OVF_vect (F_CPU : Z) : action unit :=
  rate_accumulator (MICROSECONDS_PER_INTERRUPT F_CPU) MICROSECONDS_PER_PULSE.

(** State and trace after [n] invocations of the handler. *)
Definition ticks (per_interrupt per_pulse : Z) (n : nat) : action unit :=
  times n (rate_accumulator per_interrupt per_pulse).

Definition after_ticks (per_interrupt per_pulse : Z) (n : nat) (m : machine)
  : machine * list event :=
  match exec (ticks per_interrupt per_pulse n) m with
  | Some r => r
  | None => (m, [])
  end.

(** Number of times the flag was set during the first [n] invocations after
    power-on. *)
Definition pulse_requests (F_CPU : Z) (n : nat) : Z :=
  count is_flag_set
    (snd (after_ticks (MICROSECONDS_PER_INTERRUPT F_CPU) MICROSECONDS_PER_PULSE
            n power_on)).

(** Whether the invocation that follows [n] earlier ones sets the flag. *)
Definition sets_flag (per_interrupt per_pulse : Z) (n : nat) : bool :=
  match exec (rate_accumulator per_interrupt per_pulse)
             (fst (after_ticks per_interrupt per_pulse n power_on)) with
  | Some (_, t) => existsb is_flag_set t
  | None => false
  end.

(** One invocation of the handler as a step on machines, and the states the
    handler can reach from power-on. *)
Definition tick_step (F_CPU : Z) (m m' : machine) : Prop :=
  exists t, exec (TIMER0_OVF_vect F_CPU) m = Some (m', t).

Definition reachable (F_CPU : Z) (m : machine) : Prop :=
  clos_refl_trans machine (tick_step F_CPU) power_on m.

(** ** Main context *)

(** Lines 76-86. *)
Definition setup : action unit :=
  r <- read TCCR0B ;;
  modify (set_TCCR0B (wrap8 (Z.lor r (Z.lor (_BV CS00) (_BV CS02))))) ;;
  r <- read TIMSK ;;
  modify (set_TIMSK (wrap8 (Z.lor r (_BV TOIE0)))) ;;
  modify (set_ADCSRA 0) ;;
  r <- read PRR ;;
  modify (set_PRR (wrap8 (Z.lor r
            (Z.lor (Z.lor (_BV PRTIM1) (_BV PRUSI)) (_BV PRADC))))) ;;
  modify (set_DDRB (wrap8
            (Z.lor (Z.lor (Z.lor (_BV PB0) (_BV PB1)) (_BV PB2)) (_BV PB5)))) ;;
  modify (set_interrupts_on true) ;;
  modify (set_sleep_mode_sel SLEEP_MODE_IDLE).

(** The block that occurs at lines 91-95 and again at lines 104-108:
<<
  for (int i=0 ; i<6; i++ ){ PORTB = stateMap[i]; _delay_us(PULSE_LENGTH); }
  PORTB = 0;
>> *)
Definition send_pulses : action unit :=
  for_lt 6 (fun i =>
    v <- stateMap_at i ;;
    write_PORTB v ;;
    _delay_us PULSE_LENGTH) ;;
  write_PORTB 0.

(** Lines 89-96. *)
Definition startup_cycle : action unit :=
  for_lt 180 (fun _ => send_pulses).

(** Lines 100-109: the [if (send_pulse)] block. *)
Definition service_pulse : action unit :=
  f <- read send_pulse ;;
  if f =? 0 then ret tt
  else
    write_send_pulse 0 ;;
    send_pulses.

(** [sleep_mode()]: the CPU idles until the timer 0 overflow interrupt, whose
    handler runs before the call returns.  This is where the model runs the
    handler: the main context waits for it here, and between two waits it
    reads the flag once, at the top of the turn.  The handler itself writes
    only the flag and its accumulator ([rate_accumulator_frame] below). *)
Definition sleep_mode (F_CPU : Z) : action unit :=
  emit Idle ;;
  TIMER0_OVF_vect F_CPU.

(** One turn of [while(1)]. *)
Definition main_loop_body (F_CPU : Z) : action unit :=
  service_pulse ;;
  sleep_mode F_CPU.

(** [main], cut after [n] turns of its endless loop. *)
Definition main (F_CPU : Z) (n : nat) : action unit :=
  setup ;;
  startup_cycle ;;
  times n (main_loop_body F_CPU).

(** The trace of one motor cycle, and of the start-up sequence. *)
Definition cycle_trace : list event :=
  flat_map (fun c => [PortWrite c; Hold PULSE_LENGTH]) stateMap
  ++ [PortWrite 0].

Definition startup_trace : list event :=
  concat (repeat cycle_trace 180).

(** ** Observations on runs *)

(** Whether a request is pending: 1 when the flag is non-zero, else 0. *)
Definition pending (m : machine) : Z :=
  if send_pulse m =? 0 then 0 else 1.

(** The value on the port after a trace, given the value before it. *)
Fixpoint last_port (port : Z) (t : list event) : Z :=
  match t with
  | [] => port
  | PortWrite v :: t' => last_port v t'
  | _ :: t' => last_port port t'
  end.

(** Whether the port holds the all-off code at every idle wait of a trace
    that starts with [port] on the port. *)
Fixpoint coils_off_at_idle (port : Z) (t : list event) : bool :=
  match t with
  | [] => true
  | PortWrite v :: t' => coils_off_at_idle v t'
  | Idle :: t' => (port =? 0) && coils_off_at_idle port t'
  | _ :: t' => coils_off_at_idle port t'
  end.

(** The phase codes a trace puts on the port, in order. *)
Fixpoint phase_codes (t : list event) : list Z :=
  match t with
  | [] => []
  | PortWrite v :: t' =>
      if existsb (Z.eqb v) stateMap then v :: phase_codes t'
      else phase_codes t'
  | _ :: t' => phase_codes t'
  end.

(** Whether two port codes differ in exactly one of the pins PB0..PB2. *)
Definition one_pin_apart (a b : Z) : bool :=
  existsb (Z.eqb (Z.lxor a b)) [_BV PB0; _BV PB1; _BV PB2].

(** Whether each code of a list is one pin apart from the next. *)
Fixpoint steps_one_pin (l : list Z) : bool :=
  match l with
  | a :: (b :: _) as l' => one_pin_apart a b && steps_one_pin l'
  | _ => true
  end.

(** * Properties *)

Arguments wrap8 : simpl never.
Arguments wrap64 : simpl never.

(** ** Generic facts on actions and traces *)

Lemma wrap64_small (z : Z) : 0 <= z < 2 ^ 64 -> wrap64 z = z.
Proof. intros H. unfold wrap64. now apply Z.mod_small. Qed.

Lemma count_nil (p : event -> bool) : count p [] = 0.
Proof. reflexivity. Qed.

Lemma count_app (p : event -> bool) (t1 t2 : list event) :
  count p (t1 ++ t2) = count p t1 + count p t2.
Proof.
  unfold count. rewrite filter_app, length_app. lia.
Qed.

Lemma count_nonneg (p : event -> bool) (t : list event) : 0 <= count p t.
Proof. unfold count. lia. Qed.

Lemma exec_seq (c k : action unit) (m : machine) :
  exec (c ;; k) m =
  match exec c m with
  | None => None
  | Some (m1, t1) =>
      match exec k m1 with
      | None => None
      | Some (m2, t2) => Some (m2, t1 ++ t2)
      end
  end.
Proof.
  unfold exec, bind.
  destruct (c m) as [[[[] m1] t1]|]; [|reflexivity].
  destruct (k m1) as [[[[] m2] t2]|]; reflexivity.
Qed.

Lemma exec_times_S (n : nat) (c : action unit) (m : machine) :
  exec (times (S n) c) m =
  match exec c m with
  | None => None
  | Some (m1, t1) =>
      match exec (times n c) m1 with
      | None => None
      | Some (m2, t2) => Some (m2, t1 ++ t2)
      end
  end.
Proof. cbn [times]. apply exec_seq. Qed.

(** Running [n] times and then once more. *)
Lemma exec_times_snoc (n : nat) (c : action unit) (m : machine) :
  exec (times (S n) c) m =
  match exec (times n c) m with
  | None => None
  | Some (m1, t1) =>
      match exec c m1 with
      | None => None
      | Some (m2, t2) => Some (m2, t1 ++ t2)
      end
  end.
Proof.
  revert m. induction n as [|n IH]; intros m.
  - rewrite exec_times_S. cbn [times]. unfold exec at 2 3, ret.
    destruct (exec c m) as [[m1 t1]|]; [|reflexivity].
    now rewrite app_nil_r.
  - rewrite exec_times_S. rewrite (exec_times_S n).
    destruct (exec c m) as [[m1 t1]|]; [|reflexivity].
    rewrite IH.
    destruct (exec (times n c) m1) as [[m2 t2]|]; [|reflexivity].
    destruct (exec c m2) as [[m3 t3]|]; [|reflexivity].
    now rewrite app_assoc.
Qed.

(** ** The handler, one invocation *)

(** What one invocation computes, in the arithmetic of [uint64_t]. *)
Lemma rate_accumulator_exec (tick target : Z) (m : machine) :
  exec (rate_accumulator tick target) m =
  let u := wrap64 (unaccounted_microseconds m + wrap64 tick) in
  if u <? wrap64 target
  then Some (set_unaccounted_microseconds u m, [])
  else Some (set_send_pulse 1
               (set_unaccounted_microseconds (wrap64 (u - wrap64 target)) m),
             [FlagWrite 1]).
Proof.
  unfold exec, rate_accumulator, bind, read, modify, ret, write_send_pulse, emit.
  cbn.
  destruct (_ <? _); reflexivity.
Qed.

(** The same when nothing wraps. *)
Lemma rate_accumulator_nowrap (tick target : Z) (m : machine) :
  0 <= unaccounted_microseconds m ->
  0 <= tick ->
  unaccounted_microseconds m + tick < 2 ^ 64 ->
  0 <= target < 2 ^ 64 ->
  exec (rate_accumulator tick target) m =
  if unaccounted_microseconds m + tick <? target
  then Some (set_unaccounted_microseconds
               (unaccounted_microseconds m + tick) m, [])
  else Some (set_send_pulse 1
               (set_unaccounted_microseconds
                  (unaccounted_microseconds m + tick - target) m),
             [FlagWrite 1]).
Proof.
  intros Ha Ht Hs Hg.
  rewrite rate_accumulator_exec. cbv zeta.
  rewrite (wrap64_small tick) by lia.
  rewrite (wrap64_small target) by lia.
  rewrite (wrap64_small (_ + tick)) by lia.
  destruct (Z.ltb_spec (unaccounted_microseconds m + tick) target) as [Hlt|Hge];
    [reflexivity|].
  rewrite wrap64_small by lia. reflexivity.
Qed.

(** The handler writes nothing but its accumulator and the flag. *)
Lemma rate_accumulator_frame (tick target : Z) (m : machine) :
  exists m' t,
    exec (rate_accumulator tick target) m = Some (m', t)
    /\ TCCR0B m' = TCCR0B m /\ TIMSK m' = TIMSK m /\ ADCSRA m' = ADCSRA m
    /\ PRR m' = PRR m /\ DDRB m' = DDRB m /\ PORTB m' = PORTB m
    /\ interrupts_on m' = interrupts_on m
    /\ sleep_mode_sel m' = sleep_mode_sel m
    /\ filter is_port_write t = [].
Proof.
  rewrite rate_accumulator_exec. cbv zeta.
  destruct (_ <? _); eexists; eexists; (split; [reflexivity|]);
    cbn; repeat split; reflexivity.
Qed.

(** ** The handler, run after run *)

Section Accumulator.

Variables tick target : Z.
Hypothesis tick_range : 0 <= tick <= target.
Hypothesis target_range : 0 < target <= 2 ^ 63.

(** One invocation from a state below the target: the accumulator stays
    below the target, and time is neither lost nor invented. *)
Lemma accumulate_once (m : machine) :
  0 <= unaccounted_microseconds m < target ->
  exists m' t,
    exec (rate_accumulator tick target) m = Some (m', t)
    /\ 0 <= unaccounted_microseconds m' < target
    /\ unaccounted_microseconds m' + count is_flag_set t * target
       = unaccounted_microseconds m + tick
    /\ (count is_flag_set t = 0 \/ count is_flag_set t = 1)
    /\ existsb is_flag_set t = (target <=? unaccounted_microseconds m + tick).
Proof.
  intros Hm.
  assert (2 ^ 63 + 2 ^ 63 = 2 ^ 64) as E by reflexivity.
  rewrite rate_accumulator_nowrap by lia.
  destruct (Z.ltb_spec (unaccounted_microseconds m + tick) target) as [Hlt|Hge];
    eexists; eexists; (split; [reflexivity|]);
    cbn [unaccounted_microseconds set_unaccounted_microseconds set_send_pulse].
  - change (count is_flag_set []) with 0.
    change (existsb is_flag_set []) with false.
    repeat split; lia.
  - change (count is_flag_set [FlagWrite 1]) with 1.
    change (existsb is_flag_set [FlagWrite 1]) with true.
    repeat split; lia.
Qed.

(** [n] invocations. *)
Lemma accumulate_many (n : nat) (m : machine) :
  0 <= unaccounted_microseconds m < target ->
  exists m' t,
    exec (ticks tick target n) m = Some (m', t)
    /\ 0 <= unaccounted_microseconds m' < target
    /\ unaccounted_microseconds m' + count is_flag_set t * target
       = unaccounted_microseconds m + Z.of_nat n * tick.
Proof.
  revert m. induction n as [|n IH]; intros m Hm.
  - exists m, []. cbn. repeat split; try lia.
  - unfold ticks. rewrite exec_times_S.
    destruct (accumulate_once m Hm) as (m1 & t1 & E1 & R1 & S1 & _).
    rewrite E1.
    destruct (IH m1 R1) as (m2 & t2 & E2 & R2 & S2).
    unfold ticks in E2. rewrite E2.
    exists m2, (t1 ++ t2). split; [reflexivity|]. split; [exact R2|].
    rewrite count_app. lia.
Qed.

(** After [n] invocations from power-on the accumulator is the remainder
    and the number of requests the quotient of [n * tick] by [target]. *)
Lemma after_ticks_closed_form (n : nat) :
  let r := after_ticks tick target n power_on in
  unaccounted_microseconds (fst r) = (Z.of_nat n * tick) mod target
  /\ count is_flag_set (snd r) = (Z.of_nat n * tick) / target.
Proof.
  cbv zeta. unfold after_ticks.
  destruct (accumulate_many n power_on) as (m' & t & E & R & S).
  { cbn. lia. }
  rewrite E. cbn [fst snd].
  change (unaccounted_microseconds power_on) with 0 in S.
  split.
  - apply Z.mod_unique with (q := count is_flag_set t); lia.
  - apply Z.div_unique with (r := unaccounted_microseconds m'); lia.
Qed.

(** Whether the next invocation raises a request, in closed form. *)
Lemma sets_flag_closed_form (n : nat) :
  sets_flag tick target n = (target <=? (Z.of_nat n * tick) mod target + tick).
Proof.
  unfold sets_flag.
  destruct (after_ticks_closed_form n) as [Ha _].
  assert (0 <= unaccounted_microseconds
                 (fst (after_ticks tick target n power_on)) < target) as R.
  { rewrite Ha. apply Z.mod_pos_bound. lia. }
  destruct (accumulate_once _ R) as (m' & t & E & _ & _ & _ & F).
  rewrite E, F, Ha. reflexivity.
Qed.

(** Two invocations that both raise a request are more than
    [target - tick] of accumulated tick time apart, and a full [target]
    apart when the tick period divides it. *)
Lemma separation (i j : nat) :
  (i < j)%nat ->
  sets_flag tick target i = true ->
  sets_flag tick target j = true ->
  target < (Z.of_nat j - Z.of_nat i + 1) * tick
  /\ ((tick | target) -> target <= (Z.of_nat j - Z.of_nat i) * tick).
Proof.
  intros Hij Fi Fj.
  rewrite sets_flag_closed_form in Fi, Fj.
  apply Z.leb_le in Fi, Fj.
  set (a := Z.of_nat i) in *. set (b := Z.of_nat j) in *.
  assert (a < b) as Hab by (subst a b; lia).
  assert (0 <= a) as Ha by (subst a; lia).
  pose proof (Z.div_mod (a * tick) target ltac:(lia)) as Da.
  pose proof (Z.div_mod (b * tick) target ltac:(lia)) as Db.
  pose proof (Z.mod_pos_bound (a * tick) target ltac:(lia)) as Ra.
  pose proof (Z.mod_pos_bound (b * tick) target ltac:(lia)) as Rb.
  set (qa := a * tick / target) in *. set (ra := (a * tick) mod target) in *.
  set (qb := b * tick / target) in *. set (rb := (b * tick) mod target) in *.
  (* the request at [i] is counted by the time [j] is reached *)
  assert (qa + 1 <= qb) as Hq.
  { assert (qa + 1 <= ((a + 1) * tick) / target) as H1.
    { apply Z.div_le_lower_bound; lia. }
    assert ((a + 1) * tick / target <= qb) as H2.
    { subst qb. apply Z.div_le_mono; nia. }
    lia. }
  split.
  - nia.
  - intros [k Hk].
    (* both accumulators are multiples of the tick period *)
    assert (0 < tick) as Hpos by nia.
    assert (0 < k) as Hkpos by nia.
    assert (ra = (a - qa * k) * tick) as Ea by nia.
    assert (rb = (b - qb * k) * tick) as Eb by nia.
    assert (k <= b - qb * k + 1) as Hb.
    { assert (k * tick <= (b - qb * k + 1) * tick) by nia. nia. }
    assert (a - qa * k + 1 <= 2 * k) as Ha2.
    { assert ((a - qa * k) * tick < k * tick) by nia. nia. }
    assert (k <= a - qa * k + 1) as Ha3.
    { assert (k * tick <= (a - qa * k + 1) * tick) by nia. nia. }
    assert (a - qa * k < k) as Ha4.
    { assert ((a - qa * k) * tick < k * tick) by nia. nia. }
    assert (k <= b - a) as Hfin by nia.
    nia.
Qed.

End Accumulator.

(** ** The program's constants *)

Lemma pulse_interval_range : 0 < MICROSECONDS_PER_PULSE <= 2 ^ 63.
Proof. unfold MICROSECONDS_PER_PULSE. split; [reflexivity|]. now vm_compute. Qed.

Lemma pulse_interval_is_long : 0 <= MICROSECONDS_PER_PULSE <= LONG_MAX.
Proof. split; now vm_compute. Qed.

(** For a positive clock frequency the tick period is not negative. *)
Lemma tick_period_nonneg (F_CPU : Z) :
  0 < F_CPU -> 0 <= MICROSECONDS_PER_INTERRUPT F_CPU.
Proof.
  intros H. unfold MICROSECONDS_PER_INTERRUPT.
  apply Z.mul_nonneg_nonneg; [|lia].
  apply Z.quot_pos; lia.
Qed.

(** A tick period within the target interval is computed without leaving
    the range of [long]. *)
Lemma tick_period_is_long (F_CPU : Z) :
  0 < F_CPU ->
  MICROSECONDS_PER_INTERRUPT F_CPU <= MICROSECONDS_PER_PULSE ->
  0 <= Z.quot (1024 * 256) F_CPU <= LONG_MAX
  /\ 0 <= MICROSECONDS_PER_INTERRUPT F_CPU <= LONG_MAX.
Proof.
  intros HF Hle. pose proof (tick_period_nonneg F_CPU HF) as H0.
  pose proof pulse_interval_is_long as HL.
  unfold MICROSECONDS_PER_INTERRUPT in *.
  assert (0 <= Z.quot (1024 * 256) F_CPU) by (apply Z.quot_pos; lia).
  lia.
Qed.

Lemma handler_total (F_CPU : Z) (m : machine) :
  exists m' t, exec (TIMER0_OVF_vect F_CPU) m = Some (m', t).
Proof.
  destruct (rate_accumulator_frame (MICROSECONDS_PER_INTERRUPT F_CPU)
              MICROSECONDS_PER_PULSE m) as (m' & t & E & _).
  now exists m', t.
Qed.

(** The handler has no failing path, so neither have [n] runs of it. *)
Lemma ticks_total (tick target : Z) (n : nat) (m : machine) :
  exists m' t, exec (ticks tick target n) m = Some (m', t).
Proof.
  revert m. induction n as [|n IH]; intros m.
  - now exists m, [].
  - unfold ticks. rewrite exec_times_S.
    destruct (rate_accumulator_frame tick target m) as (m1 & t1 & E1 & _).
    rewrite E1. destruct (IH m1) as (m2 & t2 & E2).
    unfold ticks in E2. rewrite E2. now exists m2, (t1 ++ t2).
Qed.

Lemma after_ticks_S (tick target : Z) (n : nat) (m : machine) :
  exists t,
    exec (rate_accumulator tick target) (fst (after_ticks tick target n m))
    = Some (fst (after_ticks tick target (S n) m), t)
    /\ snd (after_ticks tick target (S n) m)
       = snd (after_ticks tick target n m) ++ t.
Proof.
  unfold after_ticks.
  destruct (ticks_total tick target n m) as (m1 & t1 & E1).
  unfold ticks in *. rewrite exec_times_snoc, E1. cbn [fst snd].
  destruct (rate_accumulator_frame tick target m1) as (m2 & t2 & E2 & _).
  rewrite E2. cbn [fst snd]. now exists t2.
Qed.

(** The states after [n] invocations are the reachable ones. *)
Lemma after_ticks_reachable (F_CPU : Z) (n : nat) :
  reachable F_CPU
    (fst (after_ticks (MICROSECONDS_PER_INTERRUPT F_CPU)
            MICROSECONDS_PER_PULSE n power_on)).
Proof.
  unfold reachable. induction n as [|n IH].
  - apply rt_refl.
  - destruct (after_ticks_S (MICROSECONDS_PER_INTERRUPT F_CPU)
                MICROSECONDS_PER_PULSE n power_on) as (t & E & _).
    eapply rt_trans; [exact IH|]. apply rt_step. now exists t.
Qed.

Lemma reachable_after_ticks (F_CPU : Z) (m : machine) :
  reachable F_CPU m ->
  exists n, m = fst (after_ticks (MICROSECONDS_PER_INTERRUPT F_CPU)
                       MICROSECONDS_PER_PULSE n power_on).
Proof.
  intros H. unfold reachable in H.
  induction H as [|y z _ [n IH] [t E]] using clos_refl_trans_ind_left.
  - now exists O.
  - exists (S n). subst y.
    destruct (after_ticks_S (MICROSECONDS_PER_INTERRUPT F_CPU)
                MICROSECONDS_PER_PULSE n power_on) as (t' & E' & _).
    unfold TIMER0_OVF_vect in E. rewrite E in E'. now inversion E'.
Qed.

(** After any number of invocations the accumulator is below the target
    interval, provided the tick period is. *)
Lemma after_ticks_accumulator_range (F_CPU : Z) (n : nat) :
  0 < F_CPU ->
  MICROSECONDS_PER_INTERRUPT F_CPU <= MICROSECONDS_PER_PULSE ->
  0 <= unaccounted_microseconds
         (fst (after_ticks (MICROSECONDS_PER_INTERRUPT F_CPU)
                 MICROSECONDS_PER_PULSE n power_on))
    < MICROSECONDS_PER_PULSE.
Proof.
  intros HF Hle.
  pose proof (tick_period_nonneg F_CPU HF) as H0.
  pose proof pulse_interval_range as HP.
  destruct (after_ticks_closed_form (MICROSECONDS_PER_INTERRUPT F_CPU)
              MICROSECONDS_PER_PULSE ltac:(lia) HP n) as [Ha _].
  rewrite Ha. apply Z.mod_pos_bound. lia.
Qed.

(** ** Rate accumulator: the claims *)

(** C1, as stated, fails when the tick period exceeds the target interval:
    the handler raises at most one request per invocation.  With a 256 Hz
    clock the tick period is 1_024_000_000 us (a valid [long]); the first
    invocation raises one request where the quotient is 2, and after ten
    invocations there are 10 requests where the quotient is 21. *)
Lemma rate_convergence_fails_for_long_tick :
  MICROSECONDS_PER_INTERRUPT 256 = 1024000000
  /\ MICROSECONDS_PER_INTERRUPT 256 <= LONG_MAX
  /\ pulse_requests 256 1 = 1
  /\ Z.of_nat 1 * MICROSECONDS_PER_INTERRUPT 256 / MICROSECONDS_PER_PULSE = 2
  /\ pulse_requests 256 10 = 10
  /\ Z.of_nat 10 * MICROSECONDS_PER_INTERRUPT 256 / MICROSECONDS_PER_PULSE = 21.
Proof. repeat split; now vm_compute. Qed.

(** C1 (amended): when the tick period is at most the target interval, the
    number of pulse requests raised by [n] invocations of the handler from
    power-on is [n * MICROSECONDS_PER_INTERRUPT / MICROSECONDS_PER_PULSE]
    rounded down, for every [n]; so it is within one unit of the exact
    quotient. *)
Theorem rate_convergence (F_CPU : Z) (n : nat) :
  0 < F_CPU ->
  MICROSECONDS_PER_INTERRUPT F_CPU <= MICROSECONDS_PER_PULSE ->
  pulse_requests F_CPU n
  = Z.of_nat n * MICROSECONDS_PER_INTERRUPT F_CPU / MICROSECONDS_PER_PULSE
  /\ pulse_requests F_CPU n * MICROSECONDS_PER_PULSE
     <= Z.of_nat n * MICROSECONDS_PER_INTERRUPT F_CPU
     < (pulse_requests F_CPU n + 1) * MICROSECONDS_PER_PULSE.
Proof.
  intros HF Hle.
  pose proof (tick_period_nonneg F_CPU HF) as H0.
  pose proof pulse_interval_range as HP.
  destruct (after_ticks_closed_form (MICROSECONDS_PER_INTERRUPT F_CPU)
              MICROSECONDS_PER_PULSE ltac:(lia) HP n) as [_ Hc].
  unfold pulse_requests. rewrite Hc. split; [reflexivity|].
  set (x := Z.of_nat n * MICROSECONDS_PER_INTERRUPT F_CPU).
  pose proof (Z.div_mod x MICROSECONDS_PER_PULSE ltac:(lia)) as D.
  pose proof (Z.mod_pos_bound x MICROSECONDS_PER_PULSE ltac:(lia)) as B.
  nia.
Qed.

Lemma rate_convergence_witness :
  pulse_requests 32768 150 = 2.
Proof.
  destruct (rate_convergence 32768 150) as [H _].
  - apply Z.ltb_lt. reflexivity.
  - apply Z.leb_le. reflexivity.
  - rewrite H. reflexivity.
Defined.

(** C2: with a tick period of at most the target interval, every state the
    handler reaches from power-on has its accumulator in
    [0, MICROSECONDS_PER_PULSE); and one invocation keeps the accumulator in
    that range from any state that has it there. *)
Theorem accumulator_invariant (F_CPU : Z) (m : machine) :
  0 < F_CPU ->
  MICROSECONDS_PER_INTERRUPT F_CPU <= MICROSECONDS_PER_PULSE ->
  reachable F_CPU m ->
  0 <= unaccounted_microseconds m < MICROSECONDS_PER_PULSE
  /\ forall m1 m2,
       0 <= unaccounted_microseconds m1 < MICROSECONDS_PER_PULSE ->
       tick_step F_CPU m1 m2 ->
       0 <= unaccounted_microseconds m2 < MICROSECONDS_PER_PULSE.
Proof.
  intros HF Hle Hr. split.
  - destruct (reachable_after_ticks F_CPU m Hr) as [n ->].
    now apply after_ticks_accumulator_range.
  - intros m1 m2 H1 [t E].
    pose proof (tick_period_nonneg F_CPU HF) as H0.
    destruct (accumulate_once (MICROSECONDS_PER_INTERRUPT F_CPU)
                MICROSECONDS_PER_PULSE ltac:(lia) pulse_interval_range m1 H1)
      as (m' & t' & E' & R & _).
    unfold TIMER0_OVF_vect in E. rewrite E in E'. now inversion E'; subst.
Qed.

Lemma accumulator_invariant_witness :
  0 <= unaccounted_microseconds
         (fst (after_ticks (MICROSECONDS_PER_INTERRUPT 32768)
                 MICROSECONDS_PER_PULSE 7 power_on))
    < MICROSECONDS_PER_PULSE.
Proof.
  apply (accumulator_invariant 32768).
  - apply Z.ltb_lt. reflexivity.
  - apply Z.leb_le. reflexivity.
  - apply after_ticks_reachable.
Defined.

(** C3: one invocation adds the tick period to the accumulator (in the
    arithmetic of [uint64_t], which is exact when the sum is below 2^64);
    below the target interval it returns and leaves the flag as it was;
    otherwise it subtracts the target interval once and sets the flag.
    With tick period 32 and target interval 100 the invocations reach 32,
    64, 96 without a request, and the fourth (128) raises one and leaves
    28. *)
Theorem handler_carries_remainder :
  (forall (tick target : Z) (m : machine),
      exec (rate_accumulator tick target) m =
      let u := wrap64 (unaccounted_microseconds m + wrap64 tick) in
      if u <? wrap64 target
      then Some (set_unaccounted_microseconds u m, [])
      else Some (set_send_pulse 1
                   (set_unaccounted_microseconds
                      (wrap64 (u - wrap64 target)) m),
                 [FlagWrite 1]))
  /\ (forall (tick target : Z) (m : machine),
      0 <= unaccounted_microseconds m ->
      0 <= tick ->
      unaccounted_microseconds m + tick < 2 ^ 64 ->
      0 <= target < 2 ^ 64 ->
      (unaccounted_microseconds m + tick < target ->
       exec (rate_accumulator tick target) m
       = Some (set_unaccounted_microseconds
                 (unaccounted_microseconds m + tick) m, []))
      /\ (target <= unaccounted_microseconds m + tick ->
          exec (rate_accumulator tick target) m
          = Some (set_send_pulse 1
                    (set_unaccounted_microseconds
                       (unaccounted_microseconds m + tick - target) m),
                  [FlagWrite 1])))
  /\ map (fun n => let r := after_ticks 32 100 n power_on in
                   (unaccounted_microseconds (fst r), send_pulse (fst r), snd r))
         [1%nat; 2%nat; 3%nat; 4%nat]
     = [(32, 0, []); (64, 0, []); (96, 0, []); (28, 1, [FlagWrite 1])]
  /\ map (sets_flag 32 100) [0%nat; 1%nat; 2%nat; 3%nat]
     = [false; false; false; true].
Proof.
  split; [exact rate_accumulator_exec|].
  split; [|split; reflexivity].
  intros tick target m Ha Ht Hs Hg.
  rewrite rate_accumulator_nowrap by assumption.
  split; intros H.
  - apply Z.ltb_lt in H. now rewrite H.
  - apply Z.ltb_ge in H. now rewrite H.
Qed.

Lemma handler_carries_remainder_witness :
  exec (rate_accumulator 32 100) (set_unaccounted_microseconds 96 power_on)
  = Some (set_send_pulse 1 (set_unaccounted_microseconds 28 power_on),
          [FlagWrite 1]).
Proof.
  destruct handler_carries_remainder as (_ & H & _).
  destruct (H 32 100 (set_unaccounted_microseconds 96 power_on)) as [_ H2].
  - simpl. lia.
  - lia.
  - simpl. lia.
  - lia.
  - apply H2. simpl. lia.
Defined.

(** C4, as stated, fails: the remainder carried forward shortens the next
    interval.  With a 547 Hz clock the tick period is 479_000_000 us, at most
    the target interval of 480_000_000 us; the second and the third
    invocation both raise a request, one tick period apart.  With the
    constants 32 and 100 the fourth and the seventh invocation raise a
    request, and 3 * 32 = 96 is below 100.  ([sets_flag _ _ n] is about
    invocation number [n + 1].) *)
Lemma separation_below_target_example :
  (MICROSECONDS_PER_INTERRUPT 547 = 479000000
   /\ MICROSECONDS_PER_INTERRUPT 547 <= MICROSECONDS_PER_PULSE
   /\ map (sets_flag (MICROSECONDS_PER_INTERRUPT 547) MICROSECONDS_PER_PULSE)
          [0%nat; 1%nat; 2%nat]
      = [false; true; true]
   /\ (Z.of_nat 2 - Z.of_nat 1) * MICROSECONDS_PER_INTERRUPT 547
      < MICROSECONDS_PER_PULSE)
  /\ (map (sets_flag 32 100) [3%nat; 4%nat; 5%nat; 6%nat]
      = [true; false; false; true]
      /\ (Z.of_nat 6 - Z.of_nat 3) * 32 < 100).
Proof. repeat split; now vm_compute. Qed.

(** C4 (amended): with a tick period of at most the target interval, two
    invocations that both set the flag are separated by more accumulated
    tick time than [MICROSECONDS_PER_PULSE - MICROSECONDS_PER_INTERRUPT],
    and by at least [MICROSECONDS_PER_PULSE] when the tick period divides
    the target interval. *)
Theorem pulse_separation (F_CPU : Z) (i j : nat) :
  0 < F_CPU ->
  MICROSECONDS_PER_INTERRUPT F_CPU <= MICROSECONDS_PER_PULSE ->
  (i < j)%nat ->
  sets_flag (MICROSECONDS_PER_INTERRUPT F_CPU) MICROSECONDS_PER_PULSE i = true ->
  sets_flag (MICROSECONDS_PER_INTERRUPT F_CPU) MICROSECONDS_PER_PULSE j = true ->
  MICROSECONDS_PER_PULSE - MICROSECONDS_PER_INTERRUPT F_CPU
  < (Z.of_nat j - Z.of_nat i) * MICROSECONDS_PER_INTERRUPT F_CPU
  /\ ((MICROSECONDS_PER_INTERRUPT F_CPU | MICROSECONDS_PER_PULSE) ->
      MICROSECONDS_PER_PULSE
      <= (Z.of_nat j - Z.of_nat i) * MICROSECONDS_PER_INTERRUPT F_CPU).
Proof.
  intros HF Hle Hij Fi Fj.
  pose proof (tick_period_nonneg F_CPU HF) as H0.
  pose proof pulse_interval_range as HP.
  destruct (separation (MICROSECONDS_PER_INTERRUPT F_CPU)
              MICROSECONDS_PER_PULSE ltac:(lia) HP i j Hij Fi Fj) as [H1 H2].
  split; [lia|exact H2].
Qed.

Lemma pulse_separation_witness :
  MICROSECONDS_PER_PULSE
  <= (Z.of_nat 119 - Z.of_nat 59) * MICROSECONDS_PER_INTERRUPT 32768.
Proof.
  destruct (pulse_separation 32768 59 119) as [_ H].
  - apply Z.ltb_lt. reflexivity.
  - apply Z.leb_le. reflexivity.
  - apply Nat.ltb_lt. reflexivity.
  - vm_compute. reflexivity.
  - vm_compute. reflexivity.
  - apply H. exists 60. reflexivity.
Defined.

(** C9: with a tick period of at most the target interval, on every state
    the handler reaches from power-on the 64-bit addition stays below 2^64
    and the subtraction, when it runs, does not go below zero: the wrapped
    results are the exact ones. *)
Theorem accumulator_never_wraps (F_CPU : Z) (m : machine) :
  0 < F_CPU ->
  MICROSECONDS_PER_INTERRUPT F_CPU <= MICROSECONDS_PER_PULSE ->
  reachable F_CPU m ->
  let u := unaccounted_microseconds m + MICROSECONDS_PER_INTERRUPT F_CPU in
  0 <= u < 2 ^ 64
  /\ wrap64 (unaccounted_microseconds m
             + wrap64 (MICROSECONDS_PER_INTERRUPT F_CPU)) = u
  /\ (MICROSECONDS_PER_PULSE <= u ->
      0 <= u - MICROSECONDS_PER_PULSE
      /\ wrap64 (u - wrap64 MICROSECONDS_PER_PULSE)
         = u - MICROSECONDS_PER_PULSE).
Proof.
  intros HF Hle Hr u.
  pose proof (tick_period_nonneg F_CPU HF) as H0.
  pose proof pulse_interval_range as HP.
  assert (0 <= unaccounted_microseconds m < MICROSECONDS_PER_PULSE) as Hi.
  { destruct (reachable_after_ticks F_CPU m Hr) as [n ->].
    now apply after_ticks_accumulator_range. }
  assert (2 ^ 63 + 2 ^ 63 = 2 ^ 64) as E by reflexivity.
  assert (0 <= u < 2 ^ 64) as Hu by (subst u; lia).
  split; [exact Hu|]. split.
  - rewrite (wrap64_small (MICROSECONDS_PER_INTERRUPT F_CPU)) by lia.
    now apply wrap64_small.
  - intros Hge. split; [lia|].
    rewrite (wrap64_small MICROSECONDS_PER_PULSE) by lia.
    apply wrap64_small. lia.
Qed.

Lemma accumulator_never_wraps_witness :
  0 <= 472000000 + 8000000 < 2 ^ 64.
Proof.
  pose proof (accumulator_never_wraps 32768
                (fst (after_ticks (MICROSECONDS_PER_INTERRUPT 32768)
                        MICROSECONDS_PER_PULSE 59 power_on))) as H.
  destruct H as [H _].
  - apply Z.ltb_lt. reflexivity.
  - apply Z.leb_le. reflexivity.
  - apply after_ticks_reachable.
  - exact H.
Defined.

(** ** Main context: how the pieces run *)

Lemma exec_read {A} (f : machine -> A) (k : A -> action unit) (m : machine) :
  exec (x <- read f ;; k x) m = exec (k (f m)) m.
Proof.
  unfold exec, bind, read.
  destruct (k (f m) m) as [[[[] m2] t2]|]; reflexivity.
Qed.

Lemma exec_emit (e : event) (k : action unit) (m : machine) :
  exec (emit e ;; k) m =
  match exec k m with
  | Some (m', t) => Some (m', e :: t)
  | None => None
  end.
Proof.
  unfold exec, bind, emit.
  destruct (k m) as [[[[] m2] t2]|]; reflexivity.
Qed.

(** One motor cycle: every index is inside [stateMap], the six codes go out
    in order, each held for [PULSE_LENGTH], then the port is switched off. *)
Lemma send_pulses_exec (m : machine) :
  exec send_pulses m = Some (set_PORTB 0 m, cycle_trace).
Proof. destruct m. vm_compute. reflexivity. Qed.

Lemma startup_cycle_exec (m : machine) :
  exec startup_cycle m = Some (set_PORTB 0 m, startup_trace).
Proof. destruct m. vm_compute. reflexivity. Qed.

Lemma service_pulse_idle (m : machine) :
  send_pulse m = 0 -> exec service_pulse m = Some (m, []).
Proof.
  intros H. unfold service_pulse. rewrite exec_read, H. reflexivity.
Qed.

Lemma service_pulse_requested (m : machine) :
  send_pulse m <> 0 ->
  exec service_pulse m
  = Some (set_PORTB 0 (set_send_pulse 0 m), FlagWrite 0 :: cycle_trace).
Proof.
  intros H. unfold service_pulse. rewrite exec_read.
  apply Z.eqb_neq in H. rewrite H.
  rewrite exec_seq.
  change (exec (write_send_pulse 0) m)
    with (Some (set_send_pulse 0 m, [FlagWrite 0])).
  cbv iota beta. rewrite send_pulses_exec. reflexivity.
Qed.

(** The handler leaves no trace or one flag write. *)
Lemma handler_trace (F_CPU : Z) (m : machine) :
  exists m' t,
    exec (TIMER0_OVF_vect F_CPU) m = Some (m', t)
    /\ (t = [] \/ t = [FlagWrite 1]).
Proof.
  unfold TIMER0_OVF_vect. rewrite rate_accumulator_exec. cbv zeta.
  destruct (_ <? _); eexists; eexists; (split; [reflexivity|]); auto.
Qed.

Lemma sleep_mode_exec (F_CPU : Z) (m : machine) :
  exec (sleep_mode F_CPU) m =
  match exec (TIMER0_OVF_vect F_CPU) m with
  | Some (m', t) => Some (m', Idle :: t)
  | None => None
  end.
Proof. unfold sleep_mode. apply exec_emit. Qed.

(** One turn of the loop, from any state. *)
Lemma main_loop_body_exec (F_CPU : Z) (m : machine) :
  exists m' ti,
    let m1 := if send_pulse m =? 0 then m
              else set_PORTB 0 (set_send_pulse 0 m) in
    let t1 := if send_pulse m =? 0 then []
              else FlagWrite 0 :: cycle_trace in
    exec (TIMER0_OVF_vect F_CPU) m1 = Some (m', ti)
    /\ (ti = [] \/ ti = [FlagWrite 1])
    /\ exec (main_loop_body F_CPU) m = Some (m', t1 ++ Idle :: ti).
Proof.
  unfold main_loop_body. rewrite exec_seq. cbv zeta.
  destruct (Z.eqb_spec (send_pulse m) 0) as [E|E].
  - rewrite (service_pulse_idle m E), sleep_mode_exec.
    destruct (handler_trace F_CPU m) as (m' & ti & Eh & Ht).
    rewrite Eh. now exists m', ti.
  - rewrite (service_pulse_requested m E), sleep_mode_exec.
    destruct (handler_trace F_CPU (set_PORTB 0 (set_send_pulse 0 m)))
      as (m' & ti & Eh & Ht).
    rewrite Eh. now exists m', ti.
Qed.

Lemma before_idle_app (t1 t2 : list event) :
  existsb is_idle t1 = false ->
  before_idle (t1 ++ t2) = t1 ++ before_idle t2.
Proof.
  induction t1 as [|e t1 IH]; intros H; [reflexivity|].
  cbn in H. apply orb_false_iff in H as [He Ht].
  destruct e; try discriminate; cbn; now rewrite IH.
Qed.

(** Evaluates the counts over closed traces in the goal. *)
Ltac closed_counts :=
  repeat match goal with
    | |- context [count ?p (?a ++ ?b)] =>
        let v := eval vm_compute in (count p (a ++ b)) in
        change (count p (a ++ b)) with v
    end.

(** Any number of turns of the loop, from any state: every port write
    carries an allowed code, every six phase applications answer one
    clearing of the flag, and with the flag clear at entry nothing happens
    before the first idle wait. *)
Lemma main_loop_exec (F_CPU : Z) (n : nat) (m : machine) :
  exists m' t,
    exec (times n (main_loop_body F_CPU)) m = Some (m', t)
    /\ forallb port_write_allowed t = true
    /\ count is_phase_write t = 6 * count is_flag_clear t
    /\ (send_pulse m = 0 -> before_idle t = []).
Proof.
  revert m. induction n as [|n IH]; intros m.
  - exists m, []. repeat split; reflexivity.
  - rewrite exec_times_S.
    destruct (main_loop_body_exec F_CPU m) as (m1 & ti & _ & Hti & E).
    cbv zeta in E. rewrite E.
    destruct (IH m1) as (m2 & t2 & E2 & P2 & C2 & _). rewrite E2.
    eexists; eexists; split; [reflexivity|].
    rewrite (forallb_app _ _ t2), !(count_app _ _ t2), P2, C2.
    set (c := count is_flag_clear t2). clearbody c.
    destruct (Z.eqb_spec (send_pulse m) 0) as [Ef|Ef];
      destruct Hti as [-> | ->];
      (split; [now vm_compute|split; [closed_counts; lia|]]).
    all: try (intros _; reflexivity).
    all: intros H; contradiction.
Qed.

(** [main] up to the entry of its loop. *)
Lemma boot_exec :
  exec (setup ;; startup_cycle) power_on
  = Some (Machine 5 2 0 11 39 0 true 0 0 0, startup_trace).
Proof.
  rewrite exec_seq.
  change (exec setup power_on)
    with (Some (Machine 5 2 0 11 39 0 true 0 0 0, @nil event)).
  cbv iota beta. rewrite startup_cycle_exec. reflexivity.
Qed.

Lemma main_exec (F_CPU : Z) (n : nat) :
  exists m t,
    exec (times n (main_loop_body F_CPU)) (Machine 5 2 0 11 39 0 true 0 0 0)
    = Some (m, t)
    /\ exec (main F_CPU n) power_on = Some (m, startup_trace ++ t)
    /\ forallb port_write_allowed t = true
    /\ count is_phase_write t = 6 * count is_flag_clear t
    /\ before_idle t = [].
Proof.
  destruct (main_loop_exec F_CPU n (Machine 5 2 0 11 39 0 true 0 0 0))
    as (m & t & E & P & C & B).
  exists m, t. repeat split; try assumption; [|now apply B].
  pose proof boot_exec as Eb. rewrite exec_seq in Eb.
  unfold main. rewrite exec_seq.
  destruct (exec setup power_on) as [[ms ts]|]; [|discriminate].
  rewrite exec_seq.
  destruct (exec startup_cycle ms) as [[m0 t0]|]; [|discriminate].
  inversion Eb; subst. rewrite E.
  now rewrite app_assoc.
Qed.

(** ** Motor driver: the claims *)

(** C5: when the loop finds the flag set it clears the flag first, then
    puts the six codes of the table on the port in table order, each held
    for [PULSE_LENGTH] microseconds, and last writes the all-off code 0. *)
Theorem actuation_sequence (m : machine) :
  send_pulse m <> 0 ->
  exec service_pulse m
  = Some (set_PORTB 0 (set_send_pulse 0 m),
          FlagWrite 0
          :: flat_map (fun c => [PortWrite c; Hold PULSE_LENGTH]) stateMap
          ++ [PortWrite 0])
  /\ FlagWrite 0
     :: flat_map (fun c => [PortWrite c; Hold PULSE_LENGTH]) stateMap
     ++ [PortWrite 0]
     = [FlagWrite 0;
        PortWrite 5; Hold 3000; PortWrite 1; Hold 3000; PortWrite 3; Hold 3000;
        PortWrite 2; Hold 3000; PortWrite 6; Hold 3000; PortWrite 4; Hold 3000;
        PortWrite 0]
  /\ length stateMap = 6%nat.
Proof.
  intros H. split; [|split; reflexivity].
  now apply service_pulse_requested.
Qed.

Lemma actuation_sequence_witness :
  exec service_pulse (set_send_pulse 1 power_on)
  = Some (power_on,
          [FlagWrite 0;
           PortWrite 5; Hold 3000; PortWrite 1; Hold 3000; PortWrite 3;
           Hold 3000; PortWrite 2; Hold 3000; PortWrite 6; Hold 3000;
           PortWrite 4; Hold 3000; PortWrite 0]).
Proof.
  destruct (actuation_sequence (set_send_pulse 1 power_on)) as [H _].
  - simpl. lia.
  - rewrite H. reflexivity.
Defined.

(** C6, as stated, fails on the order: the request is cleared before the
    cycle, not after it.  In the turn of the loop that finds the flag set,
    the write of 0 to the flag is the first event, no clearing follows any
    phase application, and the idle wait comes right after the all-off
    write. *)
Lemma request_cleared_before_cycle_example :
  exec (main_loop_body 32768) (set_send_pulse 1 power_on)
  = Some (set_unaccounted_microseconds 8000000 power_on,
          [FlagWrite 0;
           PortWrite 5; Hold 3000; PortWrite 1; Hold 3000; PortWrite 3;
           Hold 3000; PortWrite 2; Hold 3000; PortWrite 6; Hold 3000;
           PortWrite 4; Hold 3000; PortWrite 0; Idle])
  /\ clear_after_phase
       [FlagWrite 0;
        PortWrite 5; Hold 3000; PortWrite 1; Hold 3000; PortWrite 3;
        Hold 3000; PortWrite 2; Hold 3000; PortWrite 6; Hold 3000;
        PortWrite 4; Hold 3000; PortWrite 0; Idle] = false.
Proof. split; now vm_compute. Qed.

(** C6 (amended): on a wake with the flag set the loop clears the request
    first, then drives the motor through one full cycle of six phases, and
    goes to sleep with the request clear; nothing in the cycle or after it
    clears the flag. *)
Theorem request_cleared_then_cycle (F_CPU : Z) (m : machine) :
  send_pulse m <> 0 ->
  exists m' ti,
    exec (main_loop_body F_CPU) m
    = Some (m', FlagWrite 0 :: cycle_trace ++ Idle :: ti)
    /\ exec (TIMER0_OVF_vect F_CPU) (set_PORTB 0 (set_send_pulse 0 m))
       = Some (m', ti)
    /\ send_pulse (set_PORTB 0 (set_send_pulse 0 m)) = 0
    /\ count is_phase_write cycle_trace = 6
    /\ clear_after_phase (FlagWrite 0 :: cycle_trace ++ Idle :: ti) = false.
Proof.
  intros H.
  destruct (main_loop_body_exec F_CPU m) as (m' & ti & Eh & Hti & E).
  cbv zeta in *. apply Z.eqb_neq in H. rewrite H in *.
  exists m', ti. split; [exact E|]. split; [exact Eh|].
  split; [reflexivity|]. split; [reflexivity|].
  destruct Hti as [-> | ->]; reflexivity.
Qed.

Lemma request_cleared_then_cycle_witness :
  exists m' ti,
    exec (main_loop_body 32768) (set_send_pulse 1 power_on)
    = Some (m', FlagWrite 0 :: cycle_trace ++ Idle :: ti).
Proof.
  destruct (request_cleared_then_cycle 32768 (set_send_pulse 1 power_on))
    as (m' & ti & E & _).
  - simpl. lia.
  - exists m', ti. exact E.
Defined.

(** C7: on a wake with the flag clear the loop reaches the idle wait
    without an event and with the whole state as it was: no port write, no
    flag write. *)
Theorem idle_wake_changes_nothing (F_CPU : Z) (m : machine) :
  send_pulse m = 0 ->
  exec service_pulse m = Some (m, [])
  /\ exists m' ti,
       exec (TIMER0_OVF_vect F_CPU) m = Some (m', ti)
       /\ exec (main_loop_body F_CPU) m = Some (m', Idle :: ti).
Proof.
  intros H. split; [now apply service_pulse_idle|].
  destruct (main_loop_body_exec F_CPU m) as (m' & ti & Eh & _ & E).
  cbv zeta in *. apply Z.eqb_eq in H. rewrite H in *.
  now exists m', ti.
Qed.

Lemma idle_wake_changes_nothing_witness :
  exec service_pulse (set_PORTB 4 power_on) = Some (set_PORTB 4 power_on, []).
Proof.
  destruct (idle_wake_changes_nothing 32768 (set_PORTB 4 power_on)) as [H _].
  - reflexivity.
  - exact H.
Defined.

(** C8: before its loop [main] runs the start-up sequence whatever the flag
    holds: 180 motor cycles of six phase applications, 1080 in all, and these
    are the events before the first idle wait.  The sequence runs once: all
    later phase applications come six to a cleared request. *)
Theorem startup_sequence (F_CPU : Z) (n : nat) :
  (forall m0, exec startup_cycle m0 = Some (set_PORTB 0 m0, startup_trace))
  /\ startup_trace = concat (repeat cycle_trace 180)
  /\ count is_phase_write cycle_trace = 6
  /\ count is_phase_write startup_trace = 1080
  /\ exists m t,
       exec (main F_CPU n) power_on = Some (m, t)
       /\ before_idle t = startup_trace
       /\ count is_phase_write (before_idle t) = 1080
       /\ count is_phase_write t = 1080 + 6 * count is_flag_clear t.
Proof.
  split; [exact startup_cycle_exec|].
  split; [reflexivity|]. split; [reflexivity|].
  assert (count is_phase_write startup_trace = 1080) as C by now vm_compute.
  assert (count is_flag_clear startup_trace = 0) as C0 by now vm_compute.
  split; [exact C|].
  destruct (main_exec F_CPU n) as (m & t & _ & E & _ & Ct & B).
  exists m, (startup_trace ++ t). split; [exact E|].
  assert (before_idle (startup_trace ++ t) = startup_trace) as Hb.
  { rewrite before_idle_app by now vm_compute.
    rewrite B. apply app_nil_r. }
  rewrite Hb. split; [reflexivity|]. split; [exact C|].
  rewrite !count_app, C, C0, Ct. lia.
Qed.

(** C10: every value [main] writes to the port is 0 or one of the six
    codes of [stateMap]; the six codes are pairwise distinct and within
    [pin_mask], so no write sets a bit outside PB0, PB1, PB2. *)
Theorem port_writes_within_mask (F_CPU : Z) (n : nat) :
  stateMap = [5; 1; 3; 2; 6; 4]
  /\ pin_mask = 7
  /\ NoDup stateMap
  /\ (forall c, In c stateMap -> Z.land c pin_mask = c)
  /\ exists m t,
       exec (main F_CPU n) power_on = Some (m, t)
       /\ (forall v, In (PortWrite v) t -> v = 0 \/ In v stateMap)
       /\ (forall v, In (PortWrite v) t -> Z.land v (Z.lnot pin_mask) = 0).
Proof.
  split; [reflexivity|]. split; [reflexivity|].
  split.
  { unfold stateMap. repeat constructor; cbn; intuition discriminate. }
  assert (forall c, In c stateMap -> Z.land c pin_mask = c) as Hmask.
  { intros c Hc. cbn in Hc. intuition (subst; reflexivity). }
  split; [exact Hmask|].
  destruct (main_exec F_CPU n) as (m & t & _ & E & P & _).
  exists m, (startup_trace ++ t). split; [exact E|].
  assert (forall v, In (PortWrite v) (startup_trace ++ t) ->
                    v = 0 \/ In v stateMap) as Hin.
  { intros v Hv.
    assert (forallb port_write_allowed (startup_trace ++ t) = true) as Pa.
    { rewrite forallb_app, P. now vm_compute. }
    rewrite forallb_forall in Pa. specialize (Pa _ Hv).
    cbn [port_write_allowed] in Pa.
    apply orb_true_iff in Pa as [Pa|Pa].
    - left. now apply Z.eqb_eq.
    - right. apply existsb_exists in Pa as (c & Hc & Ec).
      apply Z.eqb_eq in Ec. now subst. }
  split; [exact Hin|].
  intros v Hv. destruct (Hin v Hv) as [-> | Hc]; [reflexivity|].
  cbn in Hc. intuition (subst; reflexivity).
Qed.

(** * Further properties *)

(** ** The tick-period macro *)

(** X1.  With a clock faster than 262144 Hz the integer division in
    [MICROSECONDS_PER_INTERRUPT] gives 0: the accumulator never moves and
    no request is ever raised. *)
Theorem fast_clock_never_pulses (F_CPU : Z) (n : nat) :
  1024 * 256 < F_CPU ->
  MICROSECONDS_PER_INTERRUPT F_CPU = 0
  /\ pulse_requests F_CPU n = 0
  /\ unaccounted_microseconds
       (fst (after_ticks (MICROSECONDS_PER_INTERRUPT F_CPU)
               MICROSECONDS_PER_PULSE n power_on)) = 0
  /\ sets_flag (MICROSECONDS_PER_INTERRUPT F_CPU) MICROSECONDS_PER_PULSE n
     = false.
Proof.
  intros H.
  assert (MICROSECONDS_PER_INTERRUPT F_CPU = 0) as E.
  { unfold MICROSECONDS_PER_INTERRUPT. rewrite Z.quot_small by lia. reflexivity. }
  split; [exact E|]. unfold pulse_requests. rewrite E.
  pose proof pulse_interval_range as HP.
  destruct (after_ticks_closed_form 0 MICROSECONDS_PER_PULSE ltac:(lia) HP n)
    as [Ha Hc].
  rewrite Z.mul_0_r in Ha, Hc.
  rewrite Ha, Hc, Z.mod_0_l, Z.div_0_l by lia.
  repeat split.
  rewrite sets_flag_closed_form by lia.
  rewrite Z.mul_0_r, Z.mod_0_l by lia. apply Z.leb_gt. lia.
Qed.

Lemma fast_clock_never_pulses_witness :
  pulse_requests 8000000 1000 = 0.
Proof.
  destruct (fast_clock_never_pulses 8000000 1000) as (_ & H & _).
  - apply Z.ltb_lt. reflexivity.
  - exact H.
Defined.





(** ** The handler: what it leaves alone *)

(** One invocation, with what happens to the flag. *)
Lemma rate_accumulator_flag (tick target : Z) (m : machine) :
  exists m' t,
    exec (rate_accumulator tick target) m = Some (m', t)
    /\ (t = [] /\ send_pulse m' = send_pulse m
        \/ t = [FlagWrite 1] /\ send_pulse m' = 1)
    /\ PORTB m' = PORTB m.
Proof.
  rewrite rate_accumulator_exec. cbv zeta.
  destruct (_ <? _); eexists; eexists; (split; [reflexivity|]); cbn; auto.
Qed.

(** X4.  However often the handler runs, and whatever its constants, it changes
    no register and writes nothing to the port; it never clears the flag, so
    a pending request stays pending. *)
Theorem handler_writes_flag_and_accumulator_only
        (tick target : Z) (n : nat) (m : machine) :
  exists m' t,
    exec (ticks tick target n) m = Some (m', t)
    /\ TCCR0B m' = TCCR0B m /\ TIMSK m' = TIMSK m /\ ADCSRA m' = ADCSRA m
    /\ PRR m' = PRR m /\ DDRB m' = DDRB m /\ PORTB m' = PORTB m
    /\ interrupts_on m' = interrupts_on m
    /\ sleep_mode_sel m' = sleep_mode_sel m
    /\ filter is_port_write t = []
    /\ existsb is_flag_clear t = false
    /\ (send_pulse m' = send_pulse m \/ send_pulse m' = 1)
    /\ pending m <= pending m'.
Proof.
  revert m. induction n as [|n IH]; intros m.
  - exists m, []. cbn. repeat split; auto. lia.
  - unfold ticks. rewrite exec_times_S.
    destruct (rate_accumulator_frame tick target m)
      as (m1 & t1 & E1 & A1 & A2 & A3 & A4 & A5 & A6 & A7 & A8 & A9).
    destruct (rate_accumulator_flag tick target m) as (m1' & t1' & E1' & F1 & _).
    rewrite E1 in E1'. inversion E1'; subst m1' t1'. clear E1'.
    rewrite E1.
    destruct (IH m1)
      as (m2 & t2 & E2 & B1 & B2 & B3 & B4 & B5 & B6 & B7 & B8 & B9 & B10
          & B11 & B12).
    unfold ticks in E2. rewrite E2.
    exists m2, (t1 ++ t2). split; [reflexivity|].
    rewrite filter_app, existsb_app, A9, B9, B10.
    assert (pending m <= pending m1) as P1.
    { unfold pending. destruct F1 as [[_ ->] | [_ ->]]; [lia|].
      destruct (send_pulse m =? 0); cbn; lia. }
    repeat split; try congruence.
    + destruct F1 as [[-> _] | [-> _]]; reflexivity.
    + destruct F1 as [[_ F1] | [_ F1]]; destruct B11 as [B11|B11];
        rewrite ?B11, ?F1; auto.
    + lia.
Qed.

(** ** The handler: when requests come *)

Section Schedule.

Variables tick target : Z.
Hypothesis tick_range : 0 <= tick <= target.
Hypothesis target_range : 0 < target <= 2 ^ 63.

(** No request before a full target interval of ticks has accumulated; the
    invocation that reaches it raises the first. *)
Lemma first_request_general (n : nat) :
  ((Z.of_nat n + 1) * tick < target -> sets_flag tick target n = false)
  /\ (Z.of_nat n * tick < target <= (Z.of_nat n + 1) * tick ->
      sets_flag tick target n = true).
Proof.
  rewrite (sets_flag_closed_form tick target tick_range target_range).
  split; intros H.
  - rewrite Z.mod_small by nia. apply Z.leb_gt. lia.
  - rewrite Z.mod_small by nia. apply Z.leb_le. lia.
Qed.

(** The requests raised by [k] invocations in a row, wherever the run
    starts, are the rounded-down quotient of [k * tick] by [target] or one
    more. *)
Lemma window_general (i k : nat) :
  let c n := count is_flag_set (snd (after_ticks tick target n power_on)) in
  Z.of_nat k * tick / target <= c (i + k)%nat - c i
  <= Z.of_nat k * tick / target + 1.
Proof.
  cbv zeta.
  destruct (after_ticks_closed_form tick target tick_range target_range i)
    as [_ ->].
  destruct (after_ticks_closed_form tick target tick_range target_range
              (i + k)%nat) as [_ ->].
  rewrite Nat2Z.inj_add.
  set (a := Z.of_nat i). set (b := Z.of_nat k).
  assert (0 <= a) by (subst a; lia). assert (0 <= b) by (subst b; lia).
  pose proof (Z.div_mod (a * tick) target ltac:(lia)) as Da.
  pose proof (Z.div_mod (b * tick) target ltac:(lia)) as Db.
  pose proof (Z.div_mod ((a + b) * tick) target ltac:(lia)) as Dab.
  pose proof (Z.mod_pos_bound (a * tick) target ltac:(lia)) as Ra.
  pose proof (Z.mod_pos_bound (b * tick) target ltac:(lia)) as Rb.
  pose proof (Z.mod_pos_bound ((a + b) * tick) target ltac:(lia)) as Rab.
  nia.
Qed.

(** When the tick period divides the target interval [k] times, a request
    is raised on every [k]-th invocation and on no other, and the
    accumulator is back at zero after each of them. *)
Lemma period_general (k : Z) (n : nat) :
  0 < tick ->
  target = k * tick ->
  sets_flag tick target n = ((Z.of_nat n + 1) mod k =? 0)
  /\ unaccounted_microseconds (fst (after_ticks tick target n power_on))
     = (Z.of_nat n mod k) * tick.
Proof.
  intros Hpos Hk.
  assert (0 < k) as Hkpos by nia.
  rewrite (sets_flag_closed_form tick target tick_range target_range).
  destruct (after_ticks_closed_form tick target tick_range target_range n)
    as [-> _].
  assert ((Z.of_nat n * tick) mod target = (Z.of_nat n mod k) * tick) as E.
  { rewrite Hk. apply Z.mul_mod_distr_r; lia. }
  rewrite E. split; [|reflexivity].
  pose proof (Z.div_mod (Z.of_nat n) k ltac:(lia)) as D.
  pose proof (Z.mod_pos_bound (Z.of_nat n) k Hkpos) as B.
  set (q := Z.of_nat n / k) in *. set (r := Z.of_nat n mod k) in *.
  destruct (Z.eq_dec r (k - 1)) as [Er|Er].
  - assert ((Z.of_nat n + 1) mod k = 0) as ->.
    { symmetry. apply Z.mod_unique with (q := q + 1); lia. }
    apply Z.leb_le. nia.
  - assert ((Z.of_nat n + 1) mod k = r + 1) as ->.
    { symmetry. apply Z.mod_unique with (q := q); lia. }
    transitivity false; [apply Z.leb_gt; nia|].
    symmetry. apply Z.eqb_neq. lia.
Qed.

End Schedule.


(** ** The handler with the program's constants *)

(** X5.  No request is raised before a full target interval of ticks has
    accumulated since power-on, and the invocation that reaches it raises
    the first.  ([sets_flag _ _ n] is about invocation number [n + 1].) *)
Theorem first_request (F_CPU : Z) (n : nat) :
  0 < F_CPU ->
  MICROSECONDS_PER_INTERRUPT F_CPU <= MICROSECONDS_PER_PULSE ->
  ((Z.of_nat n + 1) * MICROSECONDS_PER_INTERRUPT F_CPU < MICROSECONDS_PER_PULSE
   -> sets_flag (MICROSECONDS_PER_INTERRUPT F_CPU) MICROSECONDS_PER_PULSE n
      = false)
  /\ (Z.of_nat n * MICROSECONDS_PER_INTERRUPT F_CPU < MICROSECONDS_PER_PULSE
      <= (Z.of_nat n + 1) * MICROSECONDS_PER_INTERRUPT F_CPU
      -> sets_flag (MICROSECONDS_PER_INTERRUPT F_CPU) MICROSECONDS_PER_PULSE n
         = true).
Proof.
  intros HF Hle.
  pose proof (tick_period_nonneg F_CPU HF) as H0.
  apply first_request_general; [lia|exact pulse_interval_range].
Qed.

Lemma first_request_witness :
  sets_flag (MICROSECONDS_PER_INTERRUPT 37449) MICROSECONDS_PER_PULSE 68
  = true.
Proof.
  destruct (first_request 37449 68) as [_ H].
  - apply Z.ltb_lt. reflexivity.
  - apply Z.leb_le. reflexivity.
  - apply H. split; [apply Z.ltb_lt|apply Z.leb_le]; reflexivity.
Defined.

(** X6.  Among any [k] invocations in a row the number of requests raised is the
    rounded-down quotient of [k * MICROSECONDS_PER_INTERRUPT] by
    [MICROSECONDS_PER_PULSE], or one more. *)
Theorem requests_in_window (F_CPU : Z) (i k : nat) :
  0 < F_CPU ->
  MICROSECONDS_PER_INTERRUPT F_CPU <= MICROSECONDS_PER_PULSE ->
  Z.of_nat k * MICROSECONDS_PER_INTERRUPT F_CPU / MICROSECONDS_PER_PULSE
  <= pulse_requests F_CPU (i + k) - pulse_requests F_CPU i
  <= Z.of_nat k * MICROSECONDS_PER_INTERRUPT F_CPU / MICROSECONDS_PER_PULSE
     + 1.
Proof.
  intros HF Hle.
  pose proof (tick_period_nonneg F_CPU HF) as H0.
  apply (window_general (MICROSECONDS_PER_INTERRUPT F_CPU)
           MICROSECONDS_PER_PULSE ltac:(lia) pulse_interval_range i k).
Qed.

Lemma requests_in_window_witness :
  0 <= pulse_requests 37449 (100 + 68) - pulse_requests 37449 100 <= 1.
Proof.
  apply (requests_in_window 37449 100 68).
  - apply Z.ltb_lt. reflexivity.
  - apply Z.leb_le. reflexivity.
Defined.

(** X7.  When the tick period is positive and divides the target interval [k]
    times, exactly every [k]-th invocation raises a request, and the
    accumulator after [n] invocations is [n mod k] tick periods.  The
    32768 Hz clock gives 8 s ticks and [k = 60]. *)
Theorem request_period (F_CPU k : Z) (n : nat) :
  0 < F_CPU ->
  0 < MICROSECONDS_PER_INTERRUPT F_CPU ->
  MICROSECONDS_PER_PULSE = k * MICROSECONDS_PER_INTERRUPT F_CPU ->
  sets_flag (MICROSECONDS_PER_INTERRUPT F_CPU) MICROSECONDS_PER_PULSE n
  = ((Z.of_nat n + 1) mod k =? 0)
  /\ unaccounted_microseconds
       (fst (after_ticks (MICROSECONDS_PER_INTERRUPT F_CPU)
               MICROSECONDS_PER_PULSE n power_on))
     = (Z.of_nat n mod k) * MICROSECONDS_PER_INTERRUPT F_CPU.
Proof.
  intros HF Hpos Hk.
  pose proof pulse_interval_range as HP.
  assert (0 < k) as Hkpos by nia.
  apply period_general; try assumption. nia.
Qed.

Lemma request_period_witness :
  sets_flag (MICROSECONDS_PER_INTERRUPT 32768) MICROSECONDS_PER_PULSE 119
  = ((Z.of_nat 119 + 1) mod 60 =? 0).
Proof.
  destruct (request_period 32768 60 119) as [H _].
  - apply Z.ltb_lt. reflexivity.
  - apply Z.ltb_lt. reflexivity.
  - reflexivity.
  - exact H.
Defined.



(** ** Set-up *)

Lemma setup_exec (m : machine) :
  exec setup m
  = Some (set_sleep_mode_sel SLEEP_MODE_IDLE
            (set_interrupts_on true
               (set_DDRB (wrap8 (Z.lor (Z.lor (Z.lor (_BV PB0) (_BV PB1))
                                          (_BV PB2)) (_BV PB5)))
                  (set_PRR (wrap8 (Z.lor (PRR m)
                              (Z.lor (Z.lor (_BV PRTIM1) (_BV PRUSI))
                                 (_BV PRADC))))
                     (set_ADCSRA 0
                        (set_TIMSK (wrap8 (Z.lor (TIMSK m) (_BV TOIE0)))
                           (set_TCCR0B
                              (wrap8 (Z.lor (TCCR0B m)
                                        (Z.lor (_BV CS00) (_BV CS02))))
                              m)))))),
          []).
Proof. destruct m. reflexivity. Qed.

(** Bit [i] of an 8-bit register after [reg |= mask]. *)
Lemma or_assign_bit (r mask i : Z) :
  0 <= i < 8 ->
  Z.testbit (wrap8 (Z.lor r mask)) i = Z.testbit r i || Z.testbit mask i.
Proof.
  intros H. unfold wrap8.
  rewrite Z.mod_pow2_bits_low by lia. apply Z.lor_spec.
Qed.

Lemma wrap8_range (z : Z) : 0 <= wrap8 z < 256.
Proof. unfold wrap8. apply Z.mod_pos_bound. reflexivity. Qed.

(** Decides a goal on a bit number below 8 by going through the eight. *)
Ltac each_bit i H :=
  assert (i = 0 \/ i = 1 \/ i = 2 \/ i = 3 \/ i = 4 \/ i = 5 \/ i = 6 \/ i = 7)
    as Hcases by lia;
  clear H;
  repeat (destruct Hcases as [Hcases|Hcases]);
  subst i; cbn; rewrite ?orb_false_r, ?orb_true_r; reflexivity.

(** X9.  From any state, [setup] only adds bits to TCCR0B, TIMSK and PRR (the
    prescaler bits CS00 and CS02, the overflow interrupt enable TOIE0, the
    power-reduction bits PRTIM1, PRUSI and PRADC) and keeps every other bit
    of them; it zeroes ADCSRA, makes every pin of [pin_mask] an output,
    enables interrupts and selects the idle sleep mode.  It writes nothing
    to the port and leaves the flag and the accumulator alone. *)
Theorem setup_configures (m : machine) :
  exists m',
    exec setup m = Some (m', [])
    /\ (forall i, 0 <= i < 8 ->
          Z.testbit (TCCR0B m') i
          = Z.testbit (TCCR0B m) i || (i =? CS00) || (i =? CS02))
    /\ (forall i, 0 <= i < 8 ->
          Z.testbit (TIMSK m') i = Z.testbit (TIMSK m) i || (i =? TOIE0))
    /\ (forall i, 0 <= i < 8 ->
          Z.testbit (PRR m') i
          = Z.testbit (PRR m) i
            || (i =? PRTIM1) || (i =? PRUSI) || (i =? PRADC))
    /\ 0 <= TCCR0B m' < 256 /\ 0 <= TIMSK m' < 256 /\ 0 <= PRR m' < 256
    /\ ADCSRA m' = 0
    /\ Z.land (DDRB m') pin_mask = pin_mask
    /\ DDRB m' = Z.lor pin_mask (_BV PB5)
    /\ interrupts_on m' = true
    /\ sleep_mode_sel m' = SLEEP_MODE_IDLE
    /\ PORTB m' = PORTB m
    /\ send_pulse m' = send_pulse m
    /\ unaccounted_microseconds m' = unaccounted_microseconds m.
Proof.
  eexists. split; [apply setup_exec|].
  cbn [TCCR0B TIMSK PRR ADCSRA DDRB PORTB interrupts_on sleep_mode_sel
       send_pulse unaccounted_microseconds
       set_TCCR0B set_TIMSK set_PRR set_ADCSRA set_DDRB set_interrupts_on
       set_sleep_mode_sel].
  split; [|split; [|split]].
  - intros i H. rewrite or_assign_bit by assumption.
    rewrite <- orb_assoc. f_equal. each_bit i H.
  - intros i H. rewrite or_assign_bit by assumption.
    f_equal. each_bit i H.
  - intros i H. rewrite or_assign_bit by assumption.
    rewrite <- !orb_assoc. f_equal. each_bit i H.
  - repeat split; try apply wrap8_range; reflexivity.
Qed.

(** ** Main context: what it leaves alone *)

(** X10.  [setup], the start-up sequence and the request service never write the
    accumulator and never set the flag: a request can only go from pending
    to served in the main context. *)
Theorem main_context_leaves_accumulator (c : action unit) (m : machine) :
  In c [setup; startup_cycle; service_pulse] ->
  exists m' t,
    exec c m = Some (m', t)
    /\ unaccounted_microseconds m' = unaccounted_microseconds m
    /\ existsb is_flag_set t = false
    /\ pending m' <= pending m.
Proof.
  intros [<- | [<- | [<- | []]]].
  - rewrite setup_exec. eexists; eexists; split; [reflexivity|].
    repeat split. unfold pending. cbn. destruct (send_pulse m =? 0); lia.
  - rewrite startup_cycle_exec. eexists; eexists; split; [reflexivity|].
    split; [reflexivity|]. split; [now vm_compute|].
    unfold pending. cbn. destruct (send_pulse m =? 0); lia.
  - destruct (Z.eqb_spec (send_pulse m) 0) as [E|E].
    + rewrite (service_pulse_idle m E).
      eexists; eexists; split; [reflexivity|]. repeat split. lia.
    + rewrite (service_pulse_requested m E).
      eexists; eexists; split; [reflexivity|].
      split; [reflexivity|]. split; [now vm_compute|].
      unfold pending. cbn. destruct (send_pulse m =? 0); lia.
Qed.

Lemma main_context_leaves_accumulator_witness :
  exists m' t,
    exec service_pulse
         (set_unaccounted_microseconds 7 (set_send_pulse 1 power_on))
    = Some (m', t)
    /\ unaccounted_microseconds m' = 7.
Proof.
  destruct (main_context_leaves_accumulator service_pulse
              (set_unaccounted_microseconds 7 (set_send_pulse 1 power_on)))
    as (m' & t & E & A & _).
  - simpl. auto.
  - exists m', t. split; [exact E|exact A].
Defined.

(** X11.  Serving is idempotent: a second look at the flag right after the first
    finds it clear and does nothing, so one request gives one motor
    cycle. *)
Theorem service_pulse_twice (m : machine) :
  exec (service_pulse ;; service_pulse) m = exec service_pulse m.
Proof.
  rewrite exec_seq.
  destruct (Z.eqb_spec (send_pulse m) 0) as [E|E].
  - rewrite (service_pulse_idle m E), (service_pulse_idle m E). reflexivity.
  - rewrite (service_pulse_requested m E).
    rewrite service_pulse_idle by reflexivity.
    now rewrite app_nil_r.
Qed.

(** ** Main context: whole runs *)

Lemma phase_codes_app (t1 t2 : list event) :
  phase_codes (t1 ++ t2) = phase_codes t1 ++ phase_codes t2.
Proof.
  induction t1 as [|e t1 IH]; [reflexivity|].
  destruct e; cbn [app phase_codes]; try exact IH.
  destruct (existsb _ _); [cbn; f_equal|]; exact IH.
Qed.

Lemma last_port_app (p : Z) (t1 t2 : list event) :
  last_port p (t1 ++ t2) = last_port (last_port p t1) t2.
Proof.
  revert p. induction t1 as [|e t1 IH]; intros p; [reflexivity|].
  destruct e; cbn [app last_port]; apply IH.
Qed.

Lemma coils_off_at_idle_app (p : Z) (t1 t2 : list event) :
  coils_off_at_idle p (t1 ++ t2)
  = coils_off_at_idle p t1 && coils_off_at_idle (last_port p t1) t2.
Proof.
  revert p. induction t1 as [|e t1 IH]; intros p; [reflexivity|].
  destruct e; cbn [app coils_off_at_idle last_port]; rewrite ?IH;
    try reflexivity.
  now rewrite andb_assoc.
Qed.

(** One turn of the loop with what it does to flag and port. *)
Lemma main_loop_body_run (F_CPU : Z) (m : machine) :
  exists m' t,
    exec (main_loop_body F_CPU) m = Some (m', t)
    /\ count is_flag_clear t + pending m' = count is_flag_set t + pending m
    /\ phase_codes t
       = concat (repeat stateMap (length (filter is_flag_clear t)))
    /\ (PORTB m = 0 ->
        PORTB m' = 0 /\ last_port 0 t = 0 /\ coils_off_at_idle 0 t = true)
    /\ exists m1 ti,
         unaccounted_microseconds m1 = unaccounted_microseconds m
         /\ exec (TIMER0_OVF_vect F_CPU) m1 = Some (m', ti)
         /\ count is_flag_set t = count is_flag_set ti.
Proof.
  destruct (main_loop_body_exec F_CPU m) as (m' & ti & Eh & _ & E).
  cbv zeta in *.
  unfold TIMER0_OVF_vect in Eh.
  match type of Eh with
  | exec _ ?m1 = _ =>
      destruct (rate_accumulator_flag (MICROSECONDS_PER_INTERRUPT F_CPU)
                  MICROSECONDS_PER_PULSE m1) as (m'' & ti' & Eh' & Hf & Hp)
  end.
  rewrite Eh in Eh'. inversion Eh'; subst m'' ti'. clear Eh'.
  eexists; eexists; split; [exact E|].
  unfold pending.
  destruct (Z.eqb_spec (send_pulse m) 0) as [Ef|Ef];
    destruct Hf as [[-> Hs] | [-> Hs]]; rewrite Hs, ?Ef; cbn [send_pulse
      set_PORTB set_send_pulse Z.eqb]; rewrite Hp.
  all: split; [now vm_compute|].
  all: split; [now vm_compute|].
  all: split; [intros P0; repeat split; (exact P0 || now vm_compute)|].
  all: eexists; eexists; (split; [|split; [exact Eh|now vm_compute]]);
    reflexivity.
Qed.

Lemma concat_repeat_add {A} (l : list A) (a b : nat) :
  concat (repeat l (a + b)) = concat (repeat l a) ++ concat (repeat l b).
Proof. now rewrite repeat_app, concat_app. Qed.

(** Any number of turns, from any state. *)
Lemma main_loop_run (F_CPU : Z) (n : nat) (m : machine) :
  exists m' t,
    exec (times n (main_loop_body F_CPU)) m = Some (m', t)
    /\ count is_flag_clear t + pending m' = count is_flag_set t + pending m
    /\ phase_codes t
       = concat (repeat stateMap (length (filter is_flag_clear t)))
    /\ (PORTB m = 0 ->
        PORTB m' = 0 /\ last_port 0 t = 0 /\ coils_off_at_idle 0 t = true).
Proof.
  revert m. induction n as [|n IH]; intros m.
  - exists m, []. cbn. repeat split; auto.
  - rewrite exec_times_S.
    destruct (main_loop_body_run F_CPU m) as (m1 & t1 & E1 & C1 & P1 & O1 & _).
    rewrite E1.
    destruct (IH m1) as (m2 & t2 & E2 & C2 & P2 & O2). rewrite E2.
    exists m2, (t1 ++ t2). split; [reflexivity|].
    rewrite !count_app, phase_codes_app, filter_app, length_app,
      concat_repeat_add, P1, P2.
    split; [lia|]. split; [reflexivity|].
    intros P0. destruct (O1 P0) as (Q1 & L1 & K1).
    destruct (O2 Q1) as (Q2 & L2 & K2).
    rewrite last_port_app, coils_off_at_idle_app, L1, L2, K1, K2.
    repeat split. exact Q2.
Qed.

(** Any number of turns keep the handler's books: the accumulator stays
    below the target interval and no tick time is lost. *)
Lemma main_loop_accumulates (F_CPU : Z) (n : nat) (m : machine) :
  0 < F_CPU ->
  MICROSECONDS_PER_INTERRUPT F_CPU <= MICROSECONDS_PER_PULSE ->
  0 <= unaccounted_microseconds m < MICROSECONDS_PER_PULSE ->
  exists m' t,
    exec (times n (main_loop_body F_CPU)) m = Some (m', t)
    /\ 0 <= unaccounted_microseconds m' < MICROSECONDS_PER_PULSE
    /\ unaccounted_microseconds m'
       + count is_flag_set t * MICROSECONDS_PER_PULSE
       = unaccounted_microseconds m
         + Z.of_nat n * MICROSECONDS_PER_INTERRUPT F_CPU.
Proof.
  intros HF Hle. pose proof (tick_period_nonneg F_CPU HF) as H0.
  revert m. induction n as [|n IH]; intros m Hm.
  - exists m, []. split; [reflexivity|].
    change (count is_flag_set []) with 0. lia.
  - rewrite exec_times_S.
    destruct (main_loop_body_run F_CPU m)
      as (m1 & t1 & E1 & _ & _ & _ & m0 & ti & A0 & Eh & Ci).
    rewrite E1.
    destruct (accumulate_once (MICROSECONDS_PER_INTERRUPT F_CPU)
                MICROSECONDS_PER_PULSE ltac:(lia) pulse_interval_range m0)
      as (m1' & ti' & Eh' & R1 & S1 & _); [rewrite A0; exact Hm|].
    unfold TIMER0_OVF_vect in Eh. rewrite Eh in Eh'.
    inversion Eh'; subst m1' ti'. clear Eh'.
    destruct (IH m1 R1) as (m2 & t2 & E2 & R2 & S2). rewrite E2.
    exists m2, (t1 ++ t2). split; [reflexivity|]. split; [exact R2|].
    rewrite count_app, Ci. lia.
Qed.

Lemma steps_one_pin_cycles (k : nat) :
  steps_one_pin (concat (repeat stateMap k)) = true.
Proof.
  induction k as [|k IH]; [reflexivity|].
  cbn [repeat concat]. destruct k as [|k]; [reflexivity|].
  cbn [repeat concat] in *. unfold stateMap at 1. unfold stateMap at 1 in IH.
  cbn [app] in *.
  change (steps_one_pin (5 :: 1 :: 3 :: 2 :: 6 :: 4 :: ?l))
    with (steps_one_pin (4 :: l)).
  exact IH.
Qed.

(** X12.  In a run of [main] every request the handler raises is answered by one
    motor cycle, except the one that may still be pending at the end: the
    clearings of the flag plus the pending request are the settings of the
    flag, and the phase applications are the 1080 of the start-up plus six
    for each served request. *)
Theorem motor_cycles_follow_requests (F_CPU : Z) (n : nat) :
  exists m t,
    exec (main F_CPU n) power_on = Some (m, t)
    /\ count is_flag_clear t + pending m = count is_flag_set t
    /\ count is_phase_write t
       = 1080 + 6 * (count is_flag_set t - pending m).
Proof.
  destruct (main_exec F_CPU n) as (m & t & El & E & _ & Cp & _).
  destruct (main_loop_run F_CPU n (Machine 5 2 0 11 39 0 true 0 0 0))
    as (m' & t' & El' & Cf & _).
  rewrite El in El'. inversion El'; subst m' t'. clear El'.
  exists m, (startup_trace ++ t). split; [exact E|].
  change (pending (Machine 5 2 0 11 39 0 true 0 0 0)) with 0 in Cf.
  rewrite !count_app.
  assert (count is_flag_clear startup_trace = 0) as -> by now vm_compute.
  assert (count is_flag_set startup_trace = 0) as -> by now vm_compute.
  assert (count is_phase_write startup_trace = 1080) as -> by now vm_compute.
  lia.
Qed.

(** X13.  In a run of [main] the phase codes on the port are the table repeated,
    180 times for the start-up and once for each cleared request: no code
    is skipped or repeated, also from one cycle to the next, and each code
    is one pin apart from the one before it. *)
Theorem phase_order_kept (F_CPU : Z) (n : nat) :
  exists m t,
    exec (main F_CPU n) power_on = Some (m, t)
    /\ phase_codes t
       = concat (repeat stateMap
                   (180 + length (filter is_flag_clear t)))
    /\ steps_one_pin (phase_codes t) = true.
Proof.
  destruct (main_exec F_CPU n) as (m & t & El & E & _).
  destruct (main_loop_run F_CPU n (Machine 5 2 0 11 39 0 true 0 0 0))
    as (m' & t' & El' & _ & Pc & _).
  rewrite El in El'. inversion El'; subst m' t'. clear El'.
  exists m, (startup_trace ++ t). split; [exact E|].
  assert (phase_codes (startup_trace ++ t)
          = concat (repeat stateMap
                      (180 + length (filter is_flag_clear
                                       (startup_trace ++ t))))) as Hc.
  { rewrite phase_codes_app, filter_app, length_app, Pc.
    assert (filter is_flag_clear startup_trace = []) as -> by now vm_compute.
    cbn [length]. rewrite Nat.add_0_l.
    rewrite (concat_repeat_add stateMap 180).
    f_equal. }
  split; [exact Hc|].
  rewrite Hc. apply steps_one_pin_cycles.
Qed.

(** X14.  In a run of [main] the port holds the all-off code whenever the CPU
    goes to sleep, and at the end of every turn of the loop. *)
Theorem coils_off_while_idle (F_CPU : Z) (n : nat) :
  exists m t,
    exec (main F_CPU n) power_on = Some (m, t)
    /\ coils_off_at_idle (PORTB power_on) t = true
    /\ PORTB m = 0.
Proof.
  destruct (main_exec F_CPU n) as (m & t & El & E & _).
  destruct (main_loop_run F_CPU n (Machine 5 2 0 11 39 0 true 0 0 0))
    as (m' & t' & El' & _ & _ & Po).
  rewrite El in El'. inversion El'; subst m' t'. clear El'.
  destruct (Po eq_refl) as (P0 & _ & K).
  exists m, (startup_trace ++ t). split; [exact E|]. split; [|exact P0].
  rewrite coils_off_at_idle_app.
  assert (last_port (PORTB power_on) startup_trace = 0) as ->
      by now vm_compute.
  rewrite K.
  assert (coils_off_at_idle (PORTB power_on) startup_trace = true) as ->
      by now vm_compute.
  reflexivity.
Qed.

(** X15.  With a tick period of at most the target interval, a run of [main]
    over [n] turns of the loop leaves in the accumulator the remainder of
    [n * MICROSECONDS_PER_INTERRUPT] by [MICROSECONDS_PER_PULSE] and has
    raised the quotient as requests: the main context does not disturb the
    handler's count.  So the motor has then done 180 cycles plus one per
    whole target interval elapsed, but for a request still pending. *)
Theorem main_keeps_time (F_CPU : Z) (n : nat) :
  0 < F_CPU ->
  MICROSECONDS_PER_INTERRUPT F_CPU <= MICROSECONDS_PER_PULSE ->
  exists m t,
    exec (main F_CPU n) power_on = Some (m, t)
    /\ unaccounted_microseconds m
       = (Z.of_nat n * MICROSECONDS_PER_INTERRUPT F_CPU)
         mod MICROSECONDS_PER_PULSE
    /\ count is_flag_set t
       = Z.of_nat n * MICROSECONDS_PER_INTERRUPT F_CPU
         / MICROSECONDS_PER_PULSE
    /\ count is_flag_clear t
       = Z.of_nat n * MICROSECONDS_PER_INTERRUPT F_CPU
         / MICROSECONDS_PER_PULSE - pending m.
Proof.
  intros HF Hle. pose proof pulse_interval_range as HP.
  destruct (main_exec F_CPU n) as (m & t & El & E & _).
  destruct (main_loop_run F_CPU n (Machine 5 2 0 11 39 0 true 0 0 0))
    as (m' & t' & El' & Cf & _).
  rewrite El in El'. inversion El'; subst m' t'. clear El'.
  destruct (main_loop_accumulates F_CPU n (Machine 5 2 0 11 39 0 true 0 0 0)
              HF Hle) as (m' & t' & El' & R & S).
  { cbn. lia. }
  rewrite El in El'. inversion El'; subst m' t'. clear El'.
  change (pending (Machine 5 2 0 11 39 0 true 0 0 0)) with 0 in Cf.
  change (unaccounted_microseconds (Machine 5 2 0 11 39 0 true 0 0 0))
    with 0 in S.
  exists m, (startup_trace ++ t). split; [exact E|].
  rewrite !count_app.
  assert (count is_flag_clear startup_trace = 0) as -> by now vm_compute.
  assert (count is_flag_set startup_trace = 0) as -> by now vm_compute.
  assert (unaccounted_microseconds m
          = (Z.of_nat n * MICROSECONDS_PER_INTERRUPT F_CPU)
            mod MICROSECONDS_PER_PULSE) as Ha.
  { apply Z.mod_unique with (q := count is_flag_set t); lia. }
  assert (count is_flag_set t
          = Z.of_nat n * MICROSECONDS_PER_INTERRUPT F_CPU
            / MICROSECONDS_PER_PULSE) as Hq.
  { apply Z.div_unique with (r := unaccounted_microseconds m); lia. }
  split; [exact Ha|]. split; [lia|]. lia.
Qed.

Lemma main_keeps_time_witness :
  exists m t,
    exec (main 32768 61) power_on = Some (m, t)
    /\ count is_flag_set t = 1.
Proof.
  destruct (main_keeps_time 32768 61) as (m & t & E & _ & C & _).
  - apply Z.ltb_lt. reflexivity.
  - apply Z.leb_le. reflexivity.
  - exists m, t. split; [exact E|]. rewrite C. reflexivity.
Defined.
